(** * tuner/common.py: the data model of the kernel tuner

    A shallow embedding of [tuner/tuner/common.py]: the records describing
    problem shapes, MFMA intrinsics and pipeline options, the intrinsic
    compatibility filter and the functions that render compiler attributes.

    Python values are modelled as follows.
    - [int] is [Z] (unbounded), [str] is [string], [list] is [list],
      [Optional[T]] is [option T], an [Enum] is an inductive type.
    - A function that can raise returns a [PyResult]: either its value or the
      exception raised.
    - The compiler's type handles ([ir.IntegerType], [ir.FloatType]) come from
      [iree.compiler.ir], which is not part of the repository.  The tuner works
      in one compiler context, where types are uniqued, so a handle is
      modelled by its structure: equality of handles is structural equality
      and [str] prints the type in the compiler's textual syntax. *)

From Stdlib Require Import ZArith List Bool Ascii String Lia.
From Stdlib Require Import Numbers.DecimalString Numbers.DecimalZ.
From stdpp Require Import list.
Import ListNotations.

Local Open Scope string_scope.
Local Open Scope Z_scope.

(** ** Python built-ins used by the module *)

Module Py.

(** Exceptions the module can raise. *)
Inductive PyExc : Type :=
| AssertionError
| ValueError.

Inductive PyResult (A : Type) : Type :=
| Ok (a : A)
| Raise (e : PyExc).
Arguments Ok {A} a.
Arguments Raise {A} e.

Definition bind {A B} (r : PyResult A) (k : A -> PyResult B) : PyResult B :=
  match r with
  | Ok a => k a
  | Raise e => Raise e
  end.

(** The double quote character, for f-strings that contain one. *)
Definition dquote : string := String (ascii_of_nat 34) EmptyString.

(** [str(i)] for an [int]. *)
Definition str_int (i : Z) : string := NilEmpty.string_of_int (Z.to_int i).

(** [str(b)] for a [bool]. *)
Definition str_bool (b : bool) : string := if b then "True" else "False".

Definition is_lower (c : ascii) : bool :=
  ((97 <=? nat_of_ascii c) && (nat_of_ascii c <=? 122))%nat.

Definition is_upper (c : ascii) : bool :=
  ((65 <=? nat_of_ascii c) && (nat_of_ascii c <=? 90))%nat.

Definition to_upper (c : ascii) : ascii :=
  if is_lower c then ascii_of_nat (nat_of_ascii c - 32) else c.

Definition to_lower (c : ascii) : ascii :=
  if is_upper c then ascii_of_nat (nat_of_ascii c + 32) else c.

Fixpoint map_chars (f : ascii -> ascii) (s : string) : string :=
  match s with
  | EmptyString => EmptyString
  | String c s' => String (f c) (map_chars f s')
  end.

(** [s.upper()] and [s.lower()], on ASCII text. *)
Definition upper (s : string) : string := map_chars to_upper s.
Definition lower (s : string) : string := map_chars to_lower s.

(** [s.title()], on ASCII text: a cased character is upper-cased when the
    character before it is not cased, and lower-cased otherwise. *)
Fixpoint title_from (previous_is_cased : bool) (s : string) : string :=
  match s with
  | EmptyString => EmptyString
  | String c s' =>
      if is_lower c || is_upper c then
        String (if previous_is_cased then to_lower c else to_upper c)
               (title_from true s')
      else String c (title_from false s')
  end.

Definition title (s : string) : string := title_from false s.

(** [sep.join(l)]. *)
Definition join (sep : string) (l : list string) : string :=
  String.concat sep l.

(** [l.append(x)], returning the list after the call. *)
Definition append {A} (l : list A) (x : A) : list A := (l ++ [x])%list.

(** [s.startswith(p)]. *)
Definition startswith (s p : string) : bool := String.prefix p s.

End Py.
Import Py.

(** ** The compiler's element types *)

Module ir.

(** The element types the tuner handles: signless integers of any width and
    the floating-point formats of [CommonTypes]. *)
Inductive Type_ : Type :=
| IntegerType (width : positive)
| Float8E4M3FNUZType
| Float8E5M2FNUZType
| F16Type
| F32Type
| BF16Type.

Definition eqb (a b : Type_) : bool :=
  match a, b with
  | IntegerType w, IntegerType w' => Pos.eqb w w'
  | Float8E4M3FNUZType, Float8E4M3FNUZType => true
  | Float8E5M2FNUZType, Float8E5M2FNUZType => true
  | F16Type, F16Type => true
  | F32Type, F32Type => true
  | BF16Type, BF16Type => true
  | _, _ => false
  end.

(** Python's [a != b] on type handles. *)
Definition neqb (a b : Type_) : bool := negb (eqb a b).

(** [str(t)]: the type in the compiler's textual syntax. *)
Definition str (t : Type_) : string :=
  match t with
  | IntegerType w => "i" ++ str_int (Zpos w)
  | Float8E4M3FNUZType => "f8E4M3FNUZ"
  | Float8E5M2FNUZType => "f8E5M2FNUZ"
  | F16Type => "f16"
  | F32Type => "f32"
  | BF16Type => "bf16"
  end.

(** [t.width]. *)
Definition width (t : Type_) : Z :=
  match t with
  | IntegerType w => Zpos w
  | Float8E4M3FNUZType | Float8E5M2FNUZType => 8
  | F16Type | BF16Type => 16
  | F32Type => 32
  end.

(** A compiler context.  In an argument of type [option Context], [None] is
    Python's [None]: the getters below then use the ambient context. *)
Record Context : Type := { context_id : nat }.

(** The getters of the type classes.  Types are uniqued in their context and
    the tuner has one context, so the handle does not record it. *)
Definition IntegerType_get_signless (w : positive) (context : option Context)
  : Type_ := IntegerType w.
Definition Float8E4M3FNUZType_get (context : option Context) : Type_ :=
  Float8E4M3FNUZType.
Definition Float8E5M2FNUZType_get (context : option Context) : Type_ :=
  Float8E5M2FNUZType.
Definition F16Type_get (context : option Context) : Type_ := F16Type.
Definition F32Type_get (context : option Context) : Type_ := F32Type.
Definition BF16Type_get (context : option Context) : Type_ := BF16Type.

End ir.

(** ** Shaped types *)

Record ShapedType : Type := {
  shape : list Z;
  element_type : ir.Type_
}.

Definition rank (t : ShapedType) : Z := Z.of_nat (length (shape t)).

Definition bitwidth (t : ShapedType) : Z := ir.width (element_type t).

Definition dim_to_str (dim : Z) : string :=
  if negb (dim =? -1) then str_int dim else "?".

Definition ShapedType_str (t : ShapedType) : string :=
  join "x" (map dim_to_str (shape t)) ++ "x" ++ ir.str (element_type t).

(** ** Problem sizes *)

Inductive DispatchKind : Type :=
| conv
| mmt
| contraction
| batch_mmt
| batch_matmul
| broadcast_rhs_mmt.

(** The value of each member, as declared. *)
Definition DispatchKind_value (d : DispatchKind) : Z :=
  match d with
  | conv => 1
  | mmt => 2
  | contraction => 3
  | batch_mmt => 4
  | batch_matmul => 5
  | broadcast_rhs_mmt => 6
  end.

(** [a != b] on members of the enumeration: members are singletons, so two
    members differ exactly when they are different members. *)
Definition DispatchKind_neqb (a b : DispatchKind) : bool :=
  negb (DispatchKind_value a =? DispatchKind_value b).

Record MatmulSize : Type := {
  M : Z;
  N : Z;
  K : Z;
  B : Z
}.

(** The constructor with [B] left at its default. *)
Definition MatmulSize_default_B (M N K : Z) : MatmulSize :=
  {| M := M; N := N; K := K; B := 1 |}.

Record ProblemSize : Type := {
  matmul_size : MatmulSize;
  lhs_type : ShapedType;
  rhs_type : ShapedType;
  res_type : ShapedType;
  dispatch_kind : DispatchKind
}.

Definition MNK (p : ProblemSize) : Z * Z * Z :=
  (M (matmul_size p), N (matmul_size p), K (matmul_size p)).

(** ** MFMA intrinsics *)

Module MfmaIntrinsic.

Record t : Type := {
  output_type : ir.Type_;
  m : Z;
  n : Z;
  k : Z;
  input_type : ir.Type_
}.

Definition str (self : t) : string :=
  let input := upper (ir.str (input_type self)) in
  let output := upper (ir.str (output_type self)) in
  "MFMA_" ++ output ++ "_" ++ str_int (m self) ++ "x" ++ str_int (n self)
          ++ "x" ++ str_int (k self) ++ "_" ++ input.

Definition mfma_f32_16x16x16_f16 : t :=
  let f16 := ir.F16Type_get None in
  let f32 := ir.F32Type_get None in
  {| output_type := f32; m := 16; n := 16; k := 16; input_type := f16 |}.

Definition mfma_f32_32x32x8_f16 : t :=
  let f16 := ir.F16Type_get None in
  let f32 := ir.F32Type_get None in
  {| output_type := f32; m := 32; n := 32; k := 8; input_type := f16 |}.

Definition mfma_i32_16x16x32_i8 : t :=
  let i32 := ir.IntegerType_get_signless 32 None in
  let i8 := ir.IntegerType_get_signless 8 None in
  {| output_type := i32; m := 16; n := 16; k := 32; input_type := i8 |}.

Definition mfma_i32_32x32x16_i8 : t :=
  let i32 := ir.IntegerType_get_signless 32 None in
  let i8 := ir.IntegerType_get_signless 8 None in
  {| output_type := i32; m := 32; n := 32; k := 16; input_type := i8 |}.

Definition all : list t :=
  [ mfma_f32_16x16x16_f16;
    mfma_f32_32x32x8_f16;
    mfma_i32_16x16x32_i8;
    mfma_i32_32x32x16_i8 ].

End MfmaIntrinsic.

(** The inner function of [get_compatible_mfma_intrinsics], with the problem
    size it closes over as its first argument. *)
Definition is_compatible (problem_size : ProblemSize)
    (intrinsic : MfmaIntrinsic.t) : bool :=
  if ir.neqb (element_type (res_type problem_size))
             (MfmaIntrinsic.output_type intrinsic)
  then false
  else if DispatchKind_neqb (dispatch_kind problem_size) batch_matmul then
    if ir.neqb (element_type (lhs_type problem_size))
               (MfmaIntrinsic.input_type intrinsic)
    then false
    else if ir.neqb (element_type (rhs_type problem_size))
                    (MfmaIntrinsic.input_type intrinsic)
    then false
    else true
  else true.

Definition get_compatible_mfma_intrinsics (problem_size : ProblemSize)
  : list MfmaIntrinsic.t :=
  List.filter (is_compatible problem_size) MfmaIntrinsic.all.

(** ** Pipeline options *)

Inductive ReorderWorkgroupsStrategy : Type :=
| NONE
| SWIZZLE
| TRANSPOSE.

Definition ReorderWorkgroupsStrategy_name (s : ReorderWorkgroupsStrategy)
  : string :=
  match s with
  | NONE => "NONE"
  | SWIZZLE => "SWIZZLE"
  | TRANSPOSE => "TRANSPOSE"
  end.

Definition ReorderWorkgroupsStrategy_str (self : ReorderWorkgroupsStrategy)
  : string :=
  title (ReorderWorkgroupsStrategy_name self).

Module GpuPipelineOptions.

Record t : Type := {
  prefetch_shared_memory : option bool;
  no_reduce_shared_memory_bank_conflicts : option bool;
  reorder_workgroups_strategy : option ReorderWorkgroupsStrategy
}.

(** [GpuPipelineOptions()]: every field at its default. *)
Definition default : t :=
  {| prefetch_shared_memory := None;
     no_reduce_shared_memory_bank_conflicts := None;
     reorder_workgroups_strategy := None |}.

(** The values a field of the record can hold, for [astuple]. *)
Inductive FieldValue : Type :=
| PyNone
| PyBool (b : bool)
| PyStrategy (s : ReorderWorkgroupsStrategy).

Definition of_option {A} (inj : A -> FieldValue) (o : option A)
  : FieldValue :=
  match o with
  | Some a => inj a
  | None => PyNone
  end.

(** [dataclasses.astuple(self)]: the fields in declaration order. *)
Definition astuple (self : t) : list FieldValue :=
  [ of_option PyBool (prefetch_shared_memory self);
    of_option PyBool (no_reduce_shared_memory_bank_conflicts self);
    of_option PyStrategy (reorder_workgroups_strategy self) ].

(** [x is None]. *)
Definition is_None (x : FieldValue) : bool :=
  match x with
  | PyNone => true
  | _ => false
  end.

Definition all_default (self : t) : bool :=
  forallb is_None (astuple self).

(** [options] is the list the method appends to; each step returns the
    list after the [if]. *)
Definition str (self : t) : string :=
  let options : list string := [] in
  let options :=
    match prefetch_shared_memory self with
    | Some v =>
        append options ("prefetch_shared_memory = " ++ lower (str_bool v))
    | None => options
    end in
  let options :=
    match no_reduce_shared_memory_bank_conflicts self with
    | Some v =>
        append options ("no_reduce_shared_memory_bank_conflicts = "
                          ++ lower (str_bool v))
    | None => options
    end in
  let options :=
    match reorder_workgroups_strategy self with
    | Some v =>
        append options ("reorder_workgroups_strategy = "
                          ++ ReorderWorkgroupsStrategy_str v)
    | None => options
    end in
  "#iree_gpu.pipeline_options<" ++ join ", " options ++ ">".

End GpuPipelineOptions.

(** ** Configurations *)

Record Configuration : Type := {
  subgroup_size : Z;
  workgroup_size : list Z;
  intrinsic : MfmaIntrinsic.t;
  tile_sizes : list Z;
  subgroup_m_count : Z;
  subgroup_n_count : Z;
  gpu_pipeline_options : GpuPipelineOptions.t;
  waves_per_eu : Z
}.

Definition get_pipeline_config (configuration : Configuration) : string :=
  let extra_config := "" in
  let extra_config :=
    if negb (GpuPipelineOptions.all_default
               (gpu_pipeline_options configuration))
    then extra_config ++ ", gpu_pipeline_options = "
           ++ GpuPipelineOptions.str (gpu_pipeline_options configuration)
    else extra_config in
  let extra_config :=
    if negb (waves_per_eu configuration =? 2)
    then extra_config ++ ", llvm_func_attrs = {" ++ dquote
           ++ "amdgpu-waves-per-eu" ++ dquote ++ " = " ++ dquote
           ++ str_int (waves_per_eu configuration) ++ dquote ++ "}"
    else extra_config in
  extra_config.

(** ** Convolution dimensions *)

(** [a, b, c, d = l]: raises [ValueError] unless [l] has four elements. *)
Definition unpack4 (l : list Z) : PyResult (Z * Z * Z * Z) :=
  match l with
  | [a; b; c; d] => Ok (a, b, c, d)
  | _ => Raise ValueError
  end.

Module ConvDimInfo.

Record t : Type := {
  n : Z;
  oh : Z;
  ow : Z;
  oc : Z;
  fh : Z;
  fw : Z;
  ic : Z
}.

Definition from_rhs_res (rhs_shaped_type res_shaped_type : ShapedType)
  : PyResult t :=
  bind (unpack4 (shape res_shaped_type)) (fun '(n, oh, ow, oc) =>
  bind (unpack4 (shape rhs_shaped_type)) (fun '(fh, fw, ic, _) =>
  Ok {| n := n; oh := oh; ow := ow; oc := oc;
        fh := fh; fw := fw; ic := ic |})).

Definition from_problem_size (problem_size : ProblemSize) : PyResult t :=
  from_rhs_res (rhs_type problem_size) (res_type problem_size).

End ConvDimInfo.

(** ** Common types and the tuner context *)

Record CommonTypes : Type := {
  i1 : ir.Type_;
  i8 : ir.Type_;
  i16 : ir.Type_;
  i32 : ir.Type_;
  f8E4M3FNUZ : ir.Type_;
  f8E5M2FNUZ : ir.Type_;
  f16 : ir.Type_;
  f32 : ir.Type_;
  bf16 : ir.Type_
}.

(** [assert ctx]: a context object is truthy, [None] is not. *)
Definition CommonTypes_init (ctx : option ir.Context)
  : PyResult CommonTypes :=
  match ctx with
  | None => Raise AssertionError
  | Some _ =>
      Ok {| i1 := ir.IntegerType_get_signless 1 ctx;
            i8 := ir.IntegerType_get_signless 8 ctx;
            i16 := ir.IntegerType_get_signless 16 ctx;
            i32 := ir.IntegerType_get_signless 32 ctx;
            f8E4M3FNUZ := ir.Float8E4M3FNUZType_get ctx;
            f8E5M2FNUZ := ir.Float8E5M2FNUZType_get ctx;
            f16 := ir.F16Type_get ctx;
            f32 := ir.F32Type_get ctx;
            bf16 := ir.BF16Type_get ctx |}
  end.

Record Logger : Type := { logger_name : string }.

Record TunerContext : Type := {
  mlir_ctx : option ir.Context;
  logger : Logger;
  type : CommonTypes
}.

Definition TunerContext_init (mlir_ctx : option ir.Context) (logger : Logger)
  : PyResult TunerContext :=
  bind (CommonTypes_init mlir_ctx) (fun types =>
  Ok {| mlir_ctx := mlir_ctx; logger := logger; type := types |}).

(** ** Reading the input file *)

Module io.

(** The files that can be opened for reading, by name, each with its text as
    text mode delivers it (decoded, line ends translated to a newline);
    [None] for a name that cannot be opened. *)
Definition FileSystem : Type := string -> option string.

Inductive IOResult (A : Type) : Type :=
| Returned (a : A)
| OSError.
Arguments Returned {A} a.
Arguments OSError {A}.

Definition newline : ascii := ascii_of_nat 10.

(** [f.readlines()]: the text cut after each newline, the newline kept. *)
Fixpoint readlines (text : string) : list string :=
  match text with
  | EmptyString => []
  | String c text' =>
      if Ascii.eqb c newline then String c EmptyString :: readlines text'
      else match readlines text' with
           | [] => [String c EmptyString]
           | line :: lines => String c line :: lines
           end
  end.

End io.

Definition read_input_mlir (fs : io.FileSystem) (filename : string)
  : io.IOResult (list string) :=
  match fs filename with
  | Some text => io.Returned (io.readlines text)
  | None => io.OSError
  end.

(** ** Sample inputs *)

Definition tensor (shape : list Z) (element_type : ir.Type_) : ShapedType :=
  {| shape := shape; element_type := element_type |}.

(** A transposed matmul on [f16] operands accumulating in [f32]. *)
Definition mmt_f16_problem : ProblemSize :=
  {| matmul_size := MatmulSize_default_B 2048 1280 1280;
     lhs_type := tensor [2048; 1280] ir.F16Type;
     rhs_type := tensor [1280; 1280] ir.F16Type;
     res_type := tensor [2048; 1280] ir.F32Type;
     dispatch_kind := mmt |}.

(** A batched matmul whose operands are not [f16]. *)
Definition batch_matmul_mixed_problem : ProblemSize :=
  {| matmul_size := {| M := 64; N := 72; K := 968; B := 640 |};
     lhs_type := tensor [640; 64; 968] (ir.IntegerType 8);
     rhs_type := tensor [640; 968; 72] ir.BF16Type;
     res_type := tensor [640; 64; 72] ir.F32Type;
     dispatch_kind := batch_matmul |}.

(** ** The properties, in the words of the specification *)

(** An intrinsic whose output type is the result's element type and whose
    input type is the element type of both operands. *)
Definition types_match (problem_size : ProblemSize)
    (intrinsic : MfmaIntrinsic.t) : Prop :=
  MfmaIntrinsic.output_type intrinsic = element_type (res_type problem_size)
  /\ MfmaIntrinsic.input_type intrinsic = element_type (lhs_type problem_size)
  /\ MfmaIntrinsic.input_type intrinsic = element_type (rhs_type problem_size).

Definition types_matchb (problem_size : ProblemSize)
    (intrinsic : MfmaIntrinsic.t) : bool :=
  ir.eqb (MfmaIntrinsic.output_type intrinsic)
         (element_type (res_type problem_size))
  && ir.eqb (MfmaIntrinsic.input_type intrinsic)
            (element_type (lhs_type problem_size))
  && ir.eqb (MfmaIntrinsic.input_type intrinsic)
            (element_type (rhs_type problem_size)).

(** An intrinsic whose output type is the result's element type. *)
Definition output_matchb (problem_size : ProblemSize)
    (intrinsic : MfmaIntrinsic.t) : bool :=
  ir.eqb (MfmaIntrinsic.output_type intrinsic)
         (element_type (res_type problem_size)).

(** The clause of one field of the pipeline options: present exactly when
    the field is set. *)
Definition clause_of {A} (field : string) (render : A -> string)
    (value : option A) : list string :=
  match value with
  | Some v => [field ++ " = " ++ render v]
  | None => []
  end.

(** The clauses of the set fields, in the order prefetch, bank conflicts,
    reorder strategy. *)
Definition clauses (options : GpuPipelineOptions.t) : list string :=
  (clause_of "prefetch_shared_memory" (fun v => lower (str_bool v))
     (GpuPipelineOptions.prefetch_shared_memory options)
   ++ clause_of "no_reduce_shared_memory_bank_conflicts"
        (fun v => lower (str_bool v))
        (GpuPipelineOptions.no_reduce_shared_memory_bank_conflicts options)
   ++ clause_of "reorder_workgroups_strategy" ReorderWorkgroupsStrategy_str
        (GpuPipelineOptions.reorder_workgroups_strategy options))%list.

(** Some clause of the list assigns the field. *)
Definition mentions (field : string) (clauses : list string) : bool :=
  existsb (fun clause => startswith clause (field ++ " = ")) clauses.

Definition is_set {A} (value : option A) : bool :=
  match value with
  | Some _ => true
  | None => false
  end.

(** The two fragments of [get_pipeline_config]. *)
Definition pipeline_options_fragment (configuration : Configuration)
  : string :=
  if GpuPipelineOptions.all_default (gpu_pipeline_options configuration)
  then ""
  else ", gpu_pipeline_options = "
         ++ GpuPipelineOptions.str (gpu_pipeline_options configuration).

Definition waves_per_eu_fragment (configuration : Configuration) : string :=
  if waves_per_eu configuration =? 2
  then ""
  else ", llvm_func_attrs = {" ++ dquote ++ "amdgpu-waves-per-eu" ++ dquote
         ++ " = " ++ dquote ++ str_int (waves_per_eu configuration)
         ++ dquote ++ "}".

(** The text has no lower-case letter. *)
Definition no_lower (s : string) : bool :=
  forallb (fun c => negb (is_lower c)) (list_ascii_of_string s).

(** The rendering of one dimension: its decimal value, or a question mark
    for the dynamic dimension. *)
Definition render_dim (dim : Z) : string :=
  if dim =? -1 then "?" else str_int dim.

(** Each dimension followed by an [x], then the closing text. *)
Fixpoint dims_then (closing : string) (dims : list Z) : string :=
  match dims with
  | [] => closing
  | dim :: dims' => render_dim dim ++ "x" ++ dims_then closing dims'
  end.

(** Reading a signed decimal numeral. *)
Definition parse_decimal (s : string) : option Z :=
  option_map Z.of_int (NilEmpty.int_of_string s).

(** ** Definitions for the further properties *)

(** The character does not occur in the text. *)
Definition lacks (c : ascii) (s : string) : bool :=
  forallb (fun a => negb (Ascii.eqb a c)) (list_ascii_of_string s).

(** The characters of a decimal numeral: the digits and the minus sign. *)
Definition is_numeral_char (a : ascii) : bool :=
  ((48 <=? nat_of_ascii a) && (nat_of_ascii a <=? 57))%nat
  || Ascii.eqb a "-".

Definition numeral (s : string) : bool :=
  forallb is_numeral_char (list_ascii_of_string s).

(** The problem with another dispatch kind. *)
Definition with_dispatch_kind (problem_size : ProblemSize)
    (kind : DispatchKind) : ProblemSize :=
  {| matmul_size := matmul_size problem_size;
     lhs_type := lhs_type problem_size;
     rhs_type := rhs_type problem_size;
     res_type := res_type problem_size;
     dispatch_kind := kind |}.

(** The two halves of the catalog. *)
Definition f32_f16_intrinsics : list MfmaIntrinsic.t :=
  [MfmaIntrinsic.mfma_f32_16x16x16_f16; MfmaIntrinsic.mfma_f32_32x32x8_f16].

Definition i32_i8_intrinsics : list MfmaIntrinsic.t :=
  [MfmaIntrinsic.mfma_i32_16x16x32_i8; MfmaIntrinsic.mfma_i32_32x32x16_i8].

(** The problem accepts intrinsics with these output and input types: the
    result has the output type and, unless the dispatch is a [batch_matmul],
    both operands have the input type. *)
Definition supported (problem_size : ProblemSize) (output input : ir.Type_)
  : bool :=
  ir.eqb (element_type (res_type problem_size)) output
  && (negb (DispatchKind_neqb (dispatch_kind problem_size) batch_matmul)
      || (ir.eqb (element_type (lhs_type problem_size)) input
          && ir.eqb (element_type (rhs_type problem_size)) input)).

(** A transposed matmul whose operands have different element types. *)
Definition mmt_mixed_operands_problem : ProblemSize :=
  {| matmul_size := MatmulSize_default_B 2048 1280 1280;
     lhs_type := tensor [2048; 1280] ir.F16Type;
     rhs_type := tensor [1280; 1280] (ir.IntegerType 8);
     res_type := tensor [2048; 1280] ir.F32Type;
     dispatch_kind := mmt |}.

(** Reading the options back from their rendering: a field is set to the
    value whose clause occurs in the text. *)
Definition occurs (part s : string) : bool :=
  match String.index 0 part s with
  | Some _ => true
  | None => false
  end.

Definition read_flag (field s : string) : option bool :=
  if occurs (field ++ " = true") s then Some true
  else if occurs (field ++ " = false") s then Some false
  else None.

Definition read_strategy (s : string) : option ReorderWorkgroupsStrategy :=
  if occurs "reorder_workgroups_strategy = None" s then Some NONE
  else if occurs "reorder_workgroups_strategy = Swizzle" s then Some SWIZZLE
  else if occurs "reorder_workgroups_strategy = Transpose" s
       then Some TRANSPOSE
  else None.

Definition read_options (s : string) : GpuPipelineOptions.t :=
  {| GpuPipelineOptions.prefetch_shared_memory :=
       read_flag "prefetch_shared_memory" s;
     GpuPipelineOptions.no_reduce_shared_memory_bank_conflicts :=
       read_flag "no_reduce_shared_memory_bank_conflicts" s;
     GpuPipelineOptions.reorder_workgroups_strategy := read_strategy s |}.

(** A convolution with a 3x3 filter. *)
Definition conv_problem : ProblemSize :=
  {| matmul_size := MatmulSize_default_B 2048 640 5760;
     lhs_type := tensor [2; 34; 34; 1280] ir.F16Type;
     rhs_type := tensor [3; 3; 1280; 640] ir.F16Type;
     res_type := tensor [2; 32; 32; 640] ir.F32Type;
     dispatch_kind := conv |}.

(** The same element types and dispatch kind as [mmt_f16_problem], with
    other shapes and sizes: no dimension is a multiple of a tile size. *)
Definition mmt_f16_odd_problem : ProblemSize :=
  {| matmul_size := {| M := 7; N := 5; K := 3; B := 9 |};
     lhs_type := tensor [7; 3] ir.F16Type;
     rhs_type := tensor [5; -1] ir.F16Type;
     res_type := tensor [] ir.F32Type;
     dispatch_kind := mmt |}.

(** The text without its last character. *)
Fixpoint but_last (s : string) : string :=
  match s with
  | EmptyString => EmptyString
  | String c EmptyString => EmptyString
  | String c s' => String c (but_last s')
  end.

(** The last character of the text. *)
Fixpoint last_char (s : string) : option ascii :=
  match s with
  | EmptyString => None
  | String c EmptyString => Some c
  | String c s' => last_char s'
  end.

(** A line of a file: not empty, with no newline before its last
    character. *)
Definition is_line (s : string) : Prop :=
  s <> "" /\ lacks io.newline (but_last s) = true.

(** ** Equality tests *)

Lemma ir_eqb_eq (a b : ir.Type_) : ir.eqb a b = true <-> a = b.
Proof.
  split.
  - destruct a, b; simpl; try discriminate; try reflexivity.
    intros H. apply Pos.eqb_eq in H. now subst.
  - intros <-. destruct a; simpl; try reflexivity. apply Pos.eqb_refl.
Qed.

Lemma ir_eqb_sym (a b : ir.Type_) : ir.eqb a b = ir.eqb b a.
Proof.
  destruct a, b; simpl; try reflexivity. apply Pos.eqb_sym.
Qed.

Lemma ir_neqb_eqb (a b : ir.Type_) : ir.neqb a b = negb (ir.eqb b a).
Proof. unfold ir.neqb. now rewrite ir_eqb_sym. Qed.

Lemma DispatchKind_neqb_true (a b : DispatchKind) :
  DispatchKind_neqb a b = true <-> a <> b.
Proof.
  destruct a, b; unfold DispatchKind_neqb; simpl; split;
    intros H; try reflexivity; try discriminate; try congruence.
Qed.

Lemma DispatchKind_neqb_false (a b : DispatchKind) :
  DispatchKind_neqb a b = false <-> a = b.
Proof.
  destruct a, b; unfold DispatchKind_neqb; simpl; split;
    intros H; try reflexivity; try discriminate.
Qed.

(** ** The compatibility filter *)

Lemma filter_sublist {A} (f : A -> bool) (l : list A) :
  sublist (List.filter f l) l.
Proof.
  induction l as [|x l IH]; simpl.
  - constructor.
  - destruct (f x); now constructor.
Qed.

Lemma is_compatible_typed (problem_size : ProblemSize)
    (intrinsic : MfmaIntrinsic.t) :
  dispatch_kind problem_size <> batch_matmul ->
  is_compatible problem_size intrinsic = types_matchb problem_size intrinsic.
Proof.
  intros Hkind. apply DispatchKind_neqb_true in Hkind.
  unfold is_compatible, types_matchb. rewrite Hkind, !ir_neqb_eqb.
  destruct (ir.eqb (MfmaIntrinsic.output_type intrinsic) _); simpl;
    [|reflexivity].
  destruct (ir.eqb (MfmaIntrinsic.input_type intrinsic)
                   (element_type (lhs_type problem_size))); simpl;
    [|reflexivity].
  now destruct (ir.eqb (MfmaIntrinsic.input_type intrinsic) _).
Qed.

Lemma is_compatible_batch_matmul (problem_size : ProblemSize)
    (intrinsic : MfmaIntrinsic.t) :
  dispatch_kind problem_size = batch_matmul ->
  is_compatible problem_size intrinsic = output_matchb problem_size intrinsic.
Proof.
  intros Hkind. apply DispatchKind_neqb_false in Hkind.
  unfold is_compatible, output_matchb. rewrite Hkind, ir_neqb_eqb.
  now destruct (ir.eqb (MfmaIntrinsic.output_type intrinsic) _).
Qed.

Lemma types_matchb_spec (problem_size : ProblemSize)
    (intrinsic : MfmaIntrinsic.t) :
  types_matchb problem_size intrinsic = true
  <-> types_match problem_size intrinsic.
Proof.
  unfold types_matchb, types_match.
  rewrite !andb_true_iff, !ir_eqb_eq. tauto.
Qed.

(** C1. When the dispatch is not a [batch_matmul], the function returns the
    intrinsics of the catalog, in the catalog's order, whose output type is
    the result's element type and whose input type is the element type of
    both the lhs and the rhs: the result is that filter of [all], it is a
    subsequence of [all], and an intrinsic is in it exactly when it is in the
    catalog and its types match. *)
Theorem get_compatible_mfma_intrinsics_typed (problem_size : ProblemSize) :
  dispatch_kind problem_size <> batch_matmul ->
  get_compatible_mfma_intrinsics problem_size
    = List.filter (types_matchb problem_size) MfmaIntrinsic.all
  /\ sublist (get_compatible_mfma_intrinsics problem_size) MfmaIntrinsic.all
  /\ (forall intrinsic : MfmaIntrinsic.t,
        In intrinsic (get_compatible_mfma_intrinsics problem_size)
        <-> In intrinsic MfmaIntrinsic.all
            /\ types_match problem_size intrinsic).
Proof.
  intros Hkind. unfold get_compatible_mfma_intrinsics.
  split; [|split].
  - apply List.filter_ext. intros i. now apply is_compatible_typed.
  - apply filter_sublist.
  - intros i. rewrite List.filter_In, is_compatible_typed by assumption.
    now rewrite types_matchb_spec.
Qed.

Lemma get_compatible_mfma_intrinsics_typed_witness :
  dispatch_kind mmt_f16_problem <> batch_matmul
  /\ get_compatible_mfma_intrinsics mmt_f16_problem
       = List.filter (types_matchb mmt_f16_problem) MfmaIntrinsic.all.
Proof.
  split; [discriminate|].
  apply (get_compatible_mfma_intrinsics_typed mmt_f16_problem). discriminate.
Defined.

(** C2. When the dispatch is a [batch_matmul], an intrinsic is selected
    exactly when its output type is the result's element type: the result is
    that filter of the catalog, membership does not mention the operand
    types, and replacing the lhs and rhs types by any others leaves the
    result unchanged. *)
Theorem get_compatible_mfma_intrinsics_batch_matmul
    (problem_size : ProblemSize) :
  dispatch_kind problem_size = batch_matmul ->
  get_compatible_mfma_intrinsics problem_size
    = List.filter (output_matchb problem_size) MfmaIntrinsic.all
  /\ (forall intrinsic : MfmaIntrinsic.t,
        In intrinsic (get_compatible_mfma_intrinsics problem_size)
        <-> In intrinsic MfmaIntrinsic.all
            /\ MfmaIntrinsic.output_type intrinsic
               = element_type (res_type problem_size))
  /\ (forall lhs rhs : ShapedType,
        get_compatible_mfma_intrinsics
          {| matmul_size := matmul_size problem_size;
             lhs_type := lhs;
             rhs_type := rhs;
             res_type := res_type problem_size;
             dispatch_kind := dispatch_kind problem_size |}
        = get_compatible_mfma_intrinsics problem_size).
Proof.
  intros Hkind. unfold get_compatible_mfma_intrinsics.
  split; [|split].
  - apply List.filter_ext. intros i. now apply is_compatible_batch_matmul.
  - intros i.
    rewrite List.filter_In, is_compatible_batch_matmul by assumption.
    unfold output_matchb. now rewrite ir_eqb_eq.
  - intros lhs rhs. apply List.filter_ext. intros i.
    now rewrite !is_compatible_batch_matmul by assumption.
Qed.

Lemma get_compatible_mfma_intrinsics_batch_matmul_witness :
  dispatch_kind batch_matmul_mixed_problem = batch_matmul
  /\ In MfmaIntrinsic.mfma_f32_16x16x16_f16
        (get_compatible_mfma_intrinsics batch_matmul_mixed_problem)
  /\ MfmaIntrinsic.input_type MfmaIntrinsic.mfma_f32_16x16x16_f16
     <> element_type (lhs_type batch_matmul_mixed_problem)
  /\ MfmaIntrinsic.input_type MfmaIntrinsic.mfma_f32_16x16x16_f16
     <> element_type (rhs_type batch_matmul_mixed_problem).
Proof.
  split; [reflexivity|]. split; [|split; discriminate].
  apply (get_compatible_mfma_intrinsics_batch_matmul
           batch_matmul_mixed_problem eq_refl).
  split; [now left | reflexivity].
Defined.

(** ** Pipeline options *)

Lemma append_nil_r (s : string) : s ++ "" = s.
Proof. induction s as [|c s IH]; simpl; [reflexivity | now rewrite IH]. Qed.

Lemma append_assoc (s1 s2 s3 : string) : (s1 ++ s2) ++ s3 = s1 ++ s2 ++ s3.
Proof. induction s1 as [|c s1 IH]; simpl; [reflexivity | now rewrite IH]. Qed.

(** C3. [all_default] holds exactly when the three fields are [None], and an
    all-default instance renders as the empty attribute. *)
Theorem all_default_iff_unset (options : GpuPipelineOptions.t) :
  (GpuPipelineOptions.all_default options = true
   <-> GpuPipelineOptions.prefetch_shared_memory options = None
       /\ GpuPipelineOptions.no_reduce_shared_memory_bank_conflicts options
          = None
       /\ GpuPipelineOptions.reorder_workgroups_strategy options = None)
  /\ (GpuPipelineOptions.all_default options = true ->
      GpuPipelineOptions.str options = "#iree_gpu.pipeline_options<>")
  /\ GpuPipelineOptions.all_default GpuPipelineOptions.default = true.
Proof.
  destruct options as [[p|] [b|] [r|]]; cbn;
    repeat split; intros; try discriminate; try reflexivity;
    repeat match goal with H : _ /\ _ |- _ => destruct H end;
    discriminate.
Qed.

(** C4. The rendering is the attribute name around the clauses of the set
    fields joined by a comma and a space; the clauses come in the order
    prefetch, bank conflicts, reorder strategy; a field is assigned in the
    output exactly when it is set; and two instances with the same three
    fields render alike. *)
Theorem GpuPipelineOptions_str_clauses (options : GpuPipelineOptions.t) :
  GpuPipelineOptions.str options
    = "#iree_gpu.pipeline_options<" ++ join ", " (clauses options) ++ ">"
  /\ mentions "prefetch_shared_memory" (clauses options)
     = is_set (GpuPipelineOptions.prefetch_shared_memory options)
  /\ mentions "no_reduce_shared_memory_bank_conflicts" (clauses options)
     = is_set
         (GpuPipelineOptions.no_reduce_shared_memory_bank_conflicts options)
  /\ mentions "reorder_workgroups_strategy" (clauses options)
     = is_set (GpuPipelineOptions.reorder_workgroups_strategy options)
  /\ length (clauses options)
     = (Nat.b2n (is_set (GpuPipelineOptions.prefetch_shared_memory options))
        + Nat.b2n
            (is_set
               (GpuPipelineOptions.no_reduce_shared_memory_bank_conflicts
                  options))
        + Nat.b2n
            (is_set (GpuPipelineOptions.reorder_workgroups_strategy options)))
         %nat
  /\ (forall other : GpuPipelineOptions.t,
        GpuPipelineOptions.prefetch_shared_memory other
        = GpuPipelineOptions.prefetch_shared_memory options ->
        GpuPipelineOptions.no_reduce_shared_memory_bank_conflicts other
        = GpuPipelineOptions.no_reduce_shared_memory_bank_conflicts options ->
        GpuPipelineOptions.reorder_workgroups_strategy other
        = GpuPipelineOptions.reorder_workgroups_strategy options ->
        GpuPipelineOptions.str other = GpuPipelineOptions.str options).
Proof.
  split; [|split; [|split; [|split; [|split]]]].
  - destruct options as [[p|] [b|] [r|]]; reflexivity.
  - destruct options as [[[]|] [[]|] [[]|]]; reflexivity.
  - destruct options as [[[]|] [[]|] [[]|]]; reflexivity.
  - destruct options as [[[]|] [[]|] [[]|]]; reflexivity.
  - destruct options as [[p|] [b|] [r|]]; reflexivity.
  - intros [p b r]; destruct options; simpl. now intros -> -> ->.
Qed.

(** ** The pipeline configuration fragment *)

(** C5. The result is the pipeline-options fragment followed by the
    waves-per-eu fragment; the first is empty exactly when the options are
    all default, the second exactly when [waves_per_eu] is 2; with both at
    their defaults the result is the empty string. *)
Theorem get_pipeline_config_fragments (configuration : Configuration) :
  get_pipeline_config configuration
    = pipeline_options_fragment configuration
        ++ waves_per_eu_fragment configuration
  /\ (pipeline_options_fragment configuration = ""
      <-> GpuPipelineOptions.all_default
            (gpu_pipeline_options configuration) = true)
  /\ (waves_per_eu_fragment configuration = ""
      <-> waves_per_eu configuration = 2)
  /\ (GpuPipelineOptions.all_default (gpu_pipeline_options configuration)
      = true ->
      waves_per_eu configuration = 2 ->
      get_pipeline_config configuration = "").
Proof.
  unfold get_pipeline_config, pipeline_options_fragment,
    waves_per_eu_fragment.
  destruct (GpuPipelineOptions.all_default _) eqn:Hd;
    destruct (Z.eqb_spec (waves_per_eu configuration) 2) as [Hw|Hw];
    cbn [negb].
  - repeat split; intros; reflexivity || assumption.
  - repeat split; intros; try reflexivity; try discriminate; contradiction.
  - rewrite append_nil_r.
    repeat split; intros; try reflexivity; try assumption; discriminate.
  - repeat split; intros; try reflexivity; try discriminate; contradiction.
Qed.

(** C10. The fragment is empty or starts with a comma and a space. *)
Theorem get_pipeline_config_leading_comma (configuration : Configuration) :
  get_pipeline_config configuration = ""
  \/ startswith (get_pipeline_config configuration) ", " = true.
Proof.
  unfold get_pipeline_config.
  destruct (GpuPipelineOptions.all_default _);
    destruct (waves_per_eu configuration =? 2); cbn [negb];
    [left | right | right | right]; reflexivity.
Qed.

(** ** Renderings of intrinsics and shaped types *)

Lemma to_upper_not_lower (c : ascii) : is_lower (to_upper c) = false.
Proof.
  unfold to_upper. destruct (is_lower c) eqn:Hc; [|assumption].
  unfold is_lower in *.
  apply andb_true_iff in Hc as [Hlo Hhi].
  apply Nat.leb_le in Hlo, Hhi.
  rewrite nat_ascii_embedding by lia.
  apply andb_false_iff. left. apply Nat.leb_gt. lia.
Qed.

Lemma upper_no_lower (s : string) : no_lower (upper s) = true.
Proof.
  unfold no_lower, upper.
  induction s as [|c s IH]; simpl; [reflexivity|].
  now rewrite to_upper_not_lower, IH.
Qed.

Lemma str_int_parse (i : Z) : parse_decimal (str_int i) = Some i.
Proof.
  unfold parse_decimal, str_int.
  rewrite NilEmpty.isi. simpl. now rewrite DecimalZ.of_to.
Qed.

Lemma join_cons (sep x : string) (l : list string) :
  l <> [] -> join sep (x :: l) = x ++ sep ++ join sep l.
Proof. destruct l; [congruence | reflexivity]. Qed.

Lemma join_dims_then (closing : string) (dims : list Z) :
  dims <> [] ->
  join "x" (map render_dim dims) ++ "x" ++ closing = dims_then closing dims.
Proof.
  induction dims as [|d dims IH]; [congruence|]. intros _.
  destruct dims as [|d' dims].
  - reflexivity.
  - change (map render_dim (d :: d' :: dims))
      with (render_dim d :: map render_dim (d' :: dims)).
    rewrite join_cons by discriminate.
    rewrite !append_assoc, IH by discriminate. reflexivity.
Qed.

(** C6. An intrinsic renders as [MFMA_], the upper-cased output type, the
    three tile dimensions separated by [x], and the upper-cased input type;
    the type parts have no lower-case letter; and the first intrinsic of the
    catalog renders as [MFMA_F32_16x16x16_F16]. *)
Theorem MfmaIntrinsic_str_format (intrinsic : MfmaIntrinsic.t) :
  MfmaIntrinsic.str intrinsic
    = "MFMA_" ++ upper (ir.str (MfmaIntrinsic.output_type intrinsic))
        ++ "_" ++ str_int (MfmaIntrinsic.m intrinsic)
        ++ "x" ++ str_int (MfmaIntrinsic.n intrinsic)
        ++ "x" ++ str_int (MfmaIntrinsic.k intrinsic)
        ++ "_" ++ upper (ir.str (MfmaIntrinsic.input_type intrinsic))
  /\ no_lower (upper (ir.str (MfmaIntrinsic.output_type intrinsic))) = true
  /\ no_lower (upper (ir.str (MfmaIntrinsic.input_type intrinsic))) = true
  /\ MfmaIntrinsic.str MfmaIntrinsic.mfma_f32_16x16x16_f16
     = "MFMA_F32_16x16x16_F16"
  /\ map MfmaIntrinsic.str MfmaIntrinsic.all
     = ["MFMA_F32_16x16x16_F16"; "MFMA_F32_32x32x8_F16";
        "MFMA_I32_16x16x32_I8"; "MFMA_I32_32x32x16_I8"].
Proof.
  split; [reflexivity|].
  split; [apply upper_no_lower|].
  split; [apply upper_no_lower|].
  split; reflexivity.
Qed.

(** C7. A shaped type renders as its dimensions joined by [x], then [x] and
    the element type; a dimension renders as a question mark exactly when it
    is -1 and as its decimal numeral otherwise; for a shape with at least one
    dimension this is each dimension followed by [x], then the element type;
    and the shape 2, -1, 4 of [i32] renders as [2x?x4xi32]. *)
Theorem ShapedType_str_format (t : ShapedType) :
  ShapedType_str t
    = join "x" (map render_dim (shape t)) ++ "x" ++ ir.str (element_type t)
  /\ (shape t <> [] ->
      ShapedType_str t = dims_then (ir.str (element_type t)) (shape t))
  /\ (forall dim : Z, render_dim dim = "?" <-> dim = -1)
  /\ (forall dim : Z, dim <> -1 -> parse_decimal (render_dim dim) = Some dim)
  /\ ShapedType_str (tensor [2; -1; 4] (ir.IntegerType_get_signless 32 None))
     = "2x?x4xi32".
Proof.
  assert (Hdim : forall dim, dim_to_str dim = render_dim dim).
  { intros dim. unfold dim_to_str, render_dim. now destruct (dim =? -1). }
  assert (Hstr : ShapedType_str t
                 = join "x" (map render_dim (shape t)) ++ "x"
                     ++ ir.str (element_type t)).
  { unfold ShapedType_str. do 2 f_equal. apply map_ext. exact Hdim. }
  split; [exact Hstr|].
  split; [intros Hne; rewrite Hstr; now apply join_dims_then|].
  split; [|split; [|reflexivity]].
  - intros dim. unfold render_dim.
    destruct (Z.eqb_spec dim (-1)) as [->|Hne]; [tauto|].
    split; [|contradiction]. intros Heq.
    pose proof (str_int_parse dim) as Hparse.
    rewrite Heq in Hparse. discriminate Hparse.
  - intros dim Hne. unfold render_dim.
    destruct (Z.eqb_spec dim (-1)); [contradiction|]. apply str_int_parse.
Qed.

(** ** Construction of the common types *)

(** C8. Constructing [CommonTypes], and so [TunerContext], raises an
    [AssertionError] when the context is [None] and succeeds when a context
    is supplied. *)
Theorem CommonTypes_init_requires_context :
  CommonTypes_init None = Raise AssertionError
  /\ (forall logger : Logger,
        TunerContext_init None logger = Raise AssertionError)
  /\ (forall ctx : ir.Context,
        exists types, CommonTypes_init (Some ctx) = Ok types)
  /\ (forall (ctx : ir.Context) (logger : Logger),
        exists tuner_ctx,
          TunerContext_init (Some ctx) logger = Ok tuner_ctx
          /\ mlir_ctx tuner_ctx = Some ctx
          /\ CommonTypes_init (Some ctx) = Ok (type tuner_ctx)).
Proof.
  split; [reflexivity|]. split; [reflexivity|]. split.
  - intros ctx. eexists. reflexivity.
  - intros ctx logger. eexists. repeat split.
Qed.

(** ** Convolution dimensions *)

Lemma unpack4_Ok (l : list Z) :
  (exists r, unpack4 l = Ok r) <-> length l = 4%nat.
Proof.
  destruct l as [|a [|b [|c [|d [|e l]]]]]; simpl; split;
    try discriminate; try reflexivity;
    try (intros [r Hr]; discriminate Hr).
  intros _. eexists. reflexivity.
Qed.

Lemma unpack4_Raise (l : list Z) :
  length l <> 4%nat -> unpack4 l = Raise ValueError.
Proof.
  destruct l as [|a [|b [|c [|d [|e l]]]]]; simpl; try reflexivity.
  congruence.
Qed.

(** C9. [from_rhs_res] returns a value exactly when both shapes have four
    dimensions and raises a [ValueError] otherwise; on four-dimensional
    shapes the value takes n, oh, ow, oc from the result shape and fh, fw, ic
    from the first three dimensions of the rhs shape, whatever the fourth
    is; [from_problem_size] is the same function of the problem's rhs and
    result types. *)
Theorem from_rhs_res_four_dims (rhs_shaped_type res_shaped_type : ShapedType) :
  ((exists info,
      ConvDimInfo.from_rhs_res rhs_shaped_type res_shaped_type = Ok info)
   <-> length (shape res_shaped_type) = 4%nat
       /\ length (shape rhs_shaped_type) = 4%nat)
  /\ (length (shape res_shaped_type) <> 4%nat
      \/ length (shape rhs_shaped_type) <> 4%nat ->
      ConvDimInfo.from_rhs_res rhs_shaped_type res_shaped_type
      = Raise ValueError)
  /\ (forall n oh ow oc fh fw ic last : Z,
        shape res_shaped_type = [n; oh; ow; oc] ->
        shape rhs_shaped_type = [fh; fw; ic; last] ->
        ConvDimInfo.from_rhs_res rhs_shaped_type res_shaped_type
        = Ok {| ConvDimInfo.n := n; ConvDimInfo.oh := oh;
                ConvDimInfo.ow := ow; ConvDimInfo.oc := oc;
                ConvDimInfo.fh := fh; ConvDimInfo.fw := fw;
                ConvDimInfo.ic := ic |})
  /\ (forall problem_size : ProblemSize,
        rhs_type problem_size = rhs_shaped_type ->
        res_type problem_size = res_shaped_type ->
        ConvDimInfo.from_problem_size problem_size
        = ConvDimInfo.from_rhs_res rhs_shaped_type res_shaped_type).
Proof.
  unfold ConvDimInfo.from_problem_size, ConvDimInfo.from_rhs_res.
  split; [|split; [|split]].
  - split.
    + intros [info Hinfo].
      destruct (unpack4 (shape res_shaped_type)) as [[[[n oh] ow] oc]|e]
        eqn:Hres; [|discriminate Hinfo].
      destruct (unpack4 (shape rhs_shaped_type)) as [[[[fh fw] ic] last]|e]
        eqn:Hrhs; [|discriminate Hinfo].
      split; apply unpack4_Ok; eexists; eassumption.
    + intros [Hres Hrhs].
      apply unpack4_Ok in Hres as [[[[n oh] ow] oc] ->].
      apply unpack4_Ok in Hrhs as [[[[fh fw] ic] last] ->].
      eexists. reflexivity.
  - intros [Hres|Hrhs].
    + now rewrite (unpack4_Raise _ Hres).
    + rewrite (unpack4_Raise _ Hrhs).
      destruct (shape res_shaped_type) as [|a [|b [|c [|d [|e l]]]]];
        reflexivity.
  - intros n oh ow oc fh fw ic last -> ->. reflexivity.
  - now intros problem_size -> ->.
Qed.

(** ** Characters of the renderings *)

Lemma lacks_cons (c a : ascii) (s : string) :
  lacks c (String a s) = negb (Ascii.eqb a c) && lacks c s.
Proof. reflexivity. Qed.

Lemma lacks_append (c : ascii) (s1 s2 : string) :
  lacks c (s1 ++ s2) = lacks c s1 && lacks c s2.
Proof.
  induction s1 as [|a s1 IH]; [reflexivity|].
  simpl. rewrite !lacks_cons, IH. now rewrite andb_assoc.
Qed.

(** Cutting at the first occurrence of a character is unambiguous. *)
Lemma append_cut (c : ascii) (a a' r r' : string) :
  lacks c a = true -> lacks c a' = true ->
  a ++ String c r = a' ++ String c r' -> a = a' /\ r = r'.
Proof.
  revert a'. induction a as [|x a IH]; intros [|x' a'] Ha Ha' Heq;
    simpl in Heq.
  - injection Heq as ->. now split.
  - injection Heq as <- _. rewrite lacks_cons, Ascii.eqb_refl in Ha'.
    discriminate Ha'.
  - injection Heq as -> _. rewrite lacks_cons, Ascii.eqb_refl in Ha.
    discriminate Ha.
  - injection Heq as -> Heq.
    rewrite lacks_cons in Ha, Ha'.
    apply andb_true_iff in Ha as [_ Ha], Ha' as [_ Ha'].
    destruct (IH a' Ha Ha' Heq) as [-> ->]. now split.
Qed.

Lemma numeral_lacks (c : ascii) (s : string) :
  is_numeral_char c = false -> numeral s = true -> lacks c s = true.
Proof.
  intros Hc. unfold numeral, lacks.
  induction s as [|a s IH]; [reflexivity|]. simpl.
  intros [Ha Hs]%andb_true_iff. rewrite (IH Hs), andb_true_r.
  destruct (Ascii.eqb_spec a c) as [->|_]; [congruence | reflexivity].
Qed.

Lemma string_of_uint_numeral (u : Decimal.uint) :
  numeral (NilEmpty.string_of_uint u) = true.
Proof. induction u; simpl; try reflexivity; exact IHu. Qed.

Lemma str_int_numeral (i : Z) : numeral (str_int i) = true.
Proof.
  unfold str_int. destruct (Z.to_int i) as [u|u]; simpl.
  - apply string_of_uint_numeral.
  - apply string_of_uint_numeral.
Qed.

Lemma str_int_inj (i j : Z) : str_int i = str_int j -> i = j.
Proof.
  intros Heq. pose proof (str_int_parse i) as Hi.
  rewrite Heq, str_int_parse in Hi. now injection Hi.
Qed.

Lemma str_int_nonempty (i : Z) : str_int i <> "".
Proof.
  intros Heq. pose proof (str_int_parse i) as Hi. rewrite Heq in Hi.
  injection Hi as <-. discriminate Heq.
Qed.

(** A numeral starts with a numeral character. *)
Lemma str_int_head (i : Z) :
  exists a s, str_int i = String a s /\ is_numeral_char a = true.
Proof.
  pose proof (str_int_numeral i) as Hnum.
  pose proof (str_int_nonempty i) as Hne.
  destruct (str_int i) as [|a s]; [contradiction|].
  exists a, s. split; [reflexivity|].
  unfold numeral in Hnum. simpl in Hnum.
  now apply andb_true_iff in Hnum as [Ha _].
Qed.

Lemma upper_numeral (s : string) : numeral s = true -> upper s = s.
Proof.
  unfold numeral, upper.
  induction s as [|a s IH]; [reflexivity|]. simpl.
  intros [Ha Hs]%andb_true_iff. rewrite (IH Hs). f_equal.
  unfold to_upper, is_lower. unfold is_numeral_char in Ha.
  destruct (Ascii.eqb_spec a "-") as [->|_]; [reflexivity|].
  rewrite orb_false_r in Ha. apply andb_true_iff in Ha as [_ Ha].
  apply Nat.leb_le in Ha.
  destruct (97 <=? nat_of_ascii a)%nat eqn:Hlo; [|reflexivity].
  apply Nat.leb_le in Hlo. lia.
Qed.

Lemma append_cancel_l (s a b : string) : s ++ a = s ++ b -> a = b.
Proof.
  induction s as [|c s IH]; simpl; [trivial|].
  intros Heq. injection Heq as Heq. now apply IH.
Qed.

(** ** Renderings of the element types *)

Lemma ir_str_numeral_tail (t : ir.Type_) :
  (exists w, t = ir.IntegerType w
             /\ ir.str t = String "i" (str_int (Zpos w)))
  \/ (ir.str t = "f8E4M3FNUZ" /\ t = ir.Float8E4M3FNUZType)
  \/ (ir.str t = "f8E5M2FNUZ" /\ t = ir.Float8E5M2FNUZType)
  \/ (ir.str t = "f16" /\ t = ir.F16Type)
  \/ (ir.str t = "f32" /\ t = ir.F32Type)
  \/ (ir.str t = "bf16" /\ t = ir.BF16Type).
Proof.
  destruct t; [left; eexists; split; reflexivity|..]; right; tauto.
Qed.

Lemma ir_str_inj (a b : ir.Type_) : ir.str a = ir.str b -> a = b.
Proof.
  destruct (ir_str_numeral_tail a)
    as [(w & -> & ->)|[(-> & ->)|[(-> & ->)|[(-> & ->)|[(-> & ->)|(-> & ->)]]]]];
  destruct (ir_str_numeral_tail b)
    as [(v & -> & ->)|[(-> & ->)|[(-> & ->)|[(-> & ->)|[(-> & ->)|(-> & ->)]]]]];
  intros Heq; try reflexivity; try discriminate Heq.
  injection Heq as Heq. apply str_int_inj in Heq. congruence.
Qed.

Lemma ir_str_lacks_x (t : ir.Type_) : lacks "x" (ir.str t) = true.
Proof.
  destruct t; try reflexivity.
  change (lacks "x" (String "i" (str_int (Zpos width))) = true).
  rewrite lacks_cons. apply (numeral_lacks "x"); [reflexivity|].
  apply str_int_numeral.
Qed.

Lemma upper_ir_str_integer (w : positive) :
  upper (ir.str (ir.IntegerType w)) = String "I" (str_int (Zpos w)).
Proof.
  change (String "I" (upper (str_int (Zpos w)))
          = String "I" (str_int (Zpos w))).
  now rewrite upper_numeral by apply str_int_numeral.
Qed.

Lemma upper_ir_str_lacks_underscore (t : ir.Type_) :
  lacks "_" (upper (ir.str t)) = true.
Proof.
  destruct t; try reflexivity.
  rewrite upper_ir_str_integer, lacks_cons.
  apply (numeral_lacks "_"); [reflexivity|]. apply str_int_numeral.
Qed.

Lemma upper_ir_str_inj (a b : ir.Type_) :
  upper (ir.str a) = upper (ir.str b) -> a = b.
Proof.
  destruct a as [w| | | | |], b as [v| | | | |];
    rewrite ?upper_ir_str_integer; intros Heq;
    try reflexivity; try discriminate Heq.
  injection Heq as Heq. apply str_int_inj in Heq. congruence.
Qed.

Lemma append_cut_sep (c : ascii) (a a' r r' : string) :
  lacks c a = true -> lacks c a' = true ->
  a ++ String c "" ++ r = a' ++ String c "" ++ r' -> a = a' /\ r = r'.
Proof. exact (append_cut c a a' r r'). Qed.

Lemma str_int_lacks (c : ascii) (i : Z) :
  is_numeral_char c = false -> lacks c (str_int i) = true.
Proof. intros Hc. apply (numeral_lacks c _ Hc), str_int_numeral. Qed.

(** ** Names of intrinsics *)

Lemma MfmaIntrinsic_str_inj (a b : MfmaIntrinsic.t) :
  MfmaIntrinsic.str a = MfmaIntrinsic.str b -> a = b.
Proof.
  destruct a as [o m n k i], b as [o' m' n' k' i'].
  unfold MfmaIntrinsic.str.
  cbn [MfmaIntrinsic.output_type MfmaIntrinsic.input_type MfmaIntrinsic.m
       MfmaIntrinsic.n MfmaIntrinsic.k].
  intros Heq. apply append_cancel_l in Heq.
  apply (append_cut_sep "_") in Heq as [Ho Heq];
    [|apply upper_ir_str_lacks_underscore..].
  apply (append_cut_sep "x") in Heq as [Hm Heq];
    [|now apply str_int_lacks..].
  apply (append_cut_sep "x") in Heq as [Hn Heq];
    [|now apply str_int_lacks..].
  apply (append_cut_sep "_") in Heq as [Hk Hi];
    [|now apply str_int_lacks..].
  apply upper_ir_str_inj in Ho, Hi. apply str_int_inj in Hm, Hn, Hk.
  now subst.
Qed.

(** The name of an intrinsic determines the intrinsic: its output type, its
    three tile dimensions and its input type can be read back from it. *)
Theorem MfmaIntrinsic_str_injective (a b : MfmaIntrinsic.t) :
  MfmaIntrinsic.str a = MfmaIntrinsic.str b <-> a = b.
Proof. split; [apply MfmaIntrinsic_str_inj | now intros ->]. Qed.

(** ** Renderings of shaped types *)

Lemma dim_to_str_render_dim (dim : Z) : dim_to_str dim = render_dim dim.
Proof. unfold dim_to_str, render_dim. now destruct (dim =? -1). Qed.

Lemma ShapedType_str_dims_then (t : ShapedType) :
  shape t <> [] ->
  ShapedType_str t = dims_then (ir.str (element_type t)) (shape t).
Proof.
  intros Hne. rewrite <- join_dims_then by assumption.
  unfold ShapedType_str. do 2 f_equal. apply map_ext.
  exact dim_to_str_render_dim.
Qed.

Lemma render_dim_lacks_x (dim : Z) : lacks "x" (render_dim dim) = true.
Proof.
  unfold render_dim. destruct (dim =? -1); [reflexivity|].
  now apply str_int_lacks.
Qed.

Lemma render_dim_inj (d d' : Z) : render_dim d = render_dim d' -> d = d'.
Proof.
  unfold render_dim.
  destruct (Z.eqb_spec d (-1)) as [->|Hd],
           (Z.eqb_spec d' (-1)) as [->|Hd']; intros Heq.
  - reflexivity.
  - pose proof (str_int_parse d') as Hp. rewrite <- Heq in Hp.
    discriminate Hp.
  - pose proof (str_int_parse d) as Hp. rewrite Heq in Hp.
    discriminate Hp.
  - now apply str_int_inj.
Qed.

(** A rendered dimension is not empty and does not start with [x]. *)
Lemma render_dim_head (dim : Z) :
  exists a s, render_dim dim = String a s /\ a <> "x"%char.
Proof.
  unfold render_dim. destruct (dim =? -1).
  - exists "?"%char, "". split; [reflexivity | discriminate].
  - destruct (str_int_head dim) as (a & s & -> & Ha).
    exists a, s. split; [reflexivity|]. intros ->. discriminate Ha.
Qed.

Lemma dims_then_inj (closing closing' : string) (dims dims' : list Z) :
  lacks "x" closing = true -> lacks "x" closing' = true ->
  dims_then closing dims = dims_then closing' dims' ->
  dims = dims' /\ closing = closing'.
Proof.
  intros Hc Hc'. revert dims'.
  induction dims as [|d dims IH]; intros [|d' dims'] Heq; simpl in Heq.
  - now split.
  - rewrite Heq, !lacks_append in Hc.
    apply andb_true_iff in Hc as [_ Hc].
    apply andb_true_iff in Hc as [Hc _]. discriminate Hc.
  - rewrite <- Heq, !lacks_append in Hc'.
    apply andb_true_iff in Hc' as [_ Hc'].
    apply andb_true_iff in Hc' as [Hc' _]. discriminate Hc'.
  - apply (append_cut_sep "x") in Heq as [Hd Heq];
      [|apply render_dim_lacks_x..].
    apply render_dim_inj in Hd. destruct (IH _ Heq) as [-> ->].
    now subst.
Qed.

(** The rendering of a shaped type determines the shaped type: its
    dimensions, dynamic or static, and its element type can be read back. *)
Theorem ShapedType_str_injective (t t' : ShapedType) :
  ShapedType_str t = ShapedType_str t' <-> t = t'.
Proof.
  split; [|now intros ->].
  destruct t as [dims e], t' as [dims' e'].
  destruct dims as [|d dims], dims' as [|d' dims'].
  - unfold ShapedType_str. simpl. intros Heq.
    injection Heq as Heq. apply ir_str_inj in Heq. now subst.
  - rewrite (ShapedType_str_dims_then {| shape := d' :: dims' |})
      by discriminate.
    unfold ShapedType_str. simpl.
    destruct (render_dim_head d') as (a & s & -> & Ha).
    intros Heq. injection Heq as Heq _. congruence.
  - rewrite (ShapedType_str_dims_then {| shape := d :: dims |})
      by discriminate.
    unfold ShapedType_str. simpl.
    destruct (render_dim_head d) as (a & s & -> & Ha).
    intros Heq. injection Heq as Heq _. congruence.
  - rewrite !ShapedType_str_dims_then by discriminate.
    cbn [shape element_type]. intros Heq.
    apply dims_then_inj in Heq as [Hdims He]; [|apply ir_str_lacks_x..].
    apply ir_str_inj in He. congruence.
Qed.

Lemma prefix_cons_neq (a b : ascii) (s1 s2 : string) :
  a <> b -> String.prefix (String a s1) (String b s2) = false.
Proof.
  intros Hne. cbn [String.prefix].
  destruct (ascii_dec a b); [contradiction | reflexivity].
Qed.

(** A shaped type renders with a leading [x] exactly when its rank is 0: the
    empty shape of [i32] renders as [xi32]. *)
Theorem ShapedType_str_leading_x (t : ShapedType) :
  startswith (ShapedType_str t) "x" = true <-> rank t = 0.
Proof.
  destruct t as [[|d dims] e]; unfold rank; cbn [shape].
  - split; intros _; [reflexivity|].
    unfold ShapedType_str, startswith. simpl. now destruct (ir.str e).
  - rewrite (ShapedType_str_dims_then {| shape := d :: dims |})
      by discriminate.
    cbn [shape element_type dims_then].
    destruct (render_dim_head d) as (a & s & -> & Ha).
    split; [|discriminate].
    unfold startswith. cbn [String.append].
    rewrite prefix_cons_neq by congruence. discriminate.
Qed.

(** ** The compatible intrinsics of a problem *)

Lemma is_compatible_supported (problem_size : ProblemSize)
    (intrinsic : MfmaIntrinsic.t) :
  is_compatible problem_size intrinsic
  = supported problem_size (MfmaIntrinsic.output_type intrinsic)
      (MfmaIntrinsic.input_type intrinsic).
Proof.
  unfold is_compatible, supported, ir.neqb.
  destruct (ir.eqb (element_type (res_type problem_size)) _); simpl;
    [|reflexivity].
  destruct (DispatchKind_neqb _ _); simpl; [|reflexivity].
  destruct (ir.eqb (element_type (lhs_type problem_size)) _); simpl;
    [|reflexivity].
  now destruct (ir.eqb (element_type (rhs_type problem_size)) _).
Qed.

Lemma supported_output (problem_size : ProblemSize)
    (output input : ir.Type_) :
  supported problem_size output input = true ->
  element_type (res_type problem_size) = output.
Proof.
  unfold supported. intros [H _]%andb_true_iff. now apply ir_eqb_eq.
Qed.

(** For every problem the result is one half of the catalog or nothing: the
    two [f32] intrinsics when the result is [f32] and (the dispatch is a
    [batch_matmul] or both operands are [f16]), the two [i32] intrinsics when
    the result is [i32] and (the dispatch is a [batch_matmul] or both
    operands are [i8]), and the empty list in every other case. *)
Theorem get_compatible_mfma_intrinsics_cases (problem_size : ProblemSize) :
  (supported problem_size ir.F32Type ir.F16Type = true ->
   get_compatible_mfma_intrinsics problem_size = f32_f16_intrinsics)
  /\ (supported problem_size (ir.IntegerType 32) (ir.IntegerType 8) = true ->
      get_compatible_mfma_intrinsics problem_size = i32_i8_intrinsics)
  /\ (supported problem_size ir.F32Type ir.F16Type = false ->
      supported problem_size (ir.IntegerType 32) (ir.IntegerType 8) = false ->
      get_compatible_mfma_intrinsics problem_size = []).
Proof.
  unfold get_compatible_mfma_intrinsics, MfmaIntrinsic.all.
  cbn [List.filter]. rewrite !is_compatible_supported.
  cbn [MfmaIntrinsic.output_type MfmaIntrinsic.input_type
       MfmaIntrinsic.mfma_f32_16x16x16_f16 MfmaIntrinsic.mfma_f32_32x32x8_f16
       MfmaIntrinsic.mfma_i32_16x16x32_i8 MfmaIntrinsic.mfma_i32_32x32x16_i8].
  unfold ir.F16Type_get, ir.F32Type_get, ir.IntegerType_get_signless.
  destruct (supported problem_size ir.F32Type ir.F16Type) eqn:Hf;
    destruct (supported problem_size (ir.IntegerType 32) (ir.IntegerType 8))
      eqn:Hi.
  - apply supported_output in Hf, Hi. congruence.
  - repeat split; intros; reflexivity || discriminate.
  - repeat split; intros; reflexivity || discriminate.
  - repeat split; intros; reflexivity || discriminate.
Qed.

Lemma filter_sublist_impl {A} (f g : A -> bool) (l : list A) :
  (forall x, f x = true -> g x = true) ->
  sublist (List.filter f l) (List.filter g l).
Proof.
  intros Himpl. induction l as [|x l IH]; simpl; [constructor|].
  destruct (f x) eqn:Hf.
  - rewrite (Himpl x Hf). now constructor.
  - destruct (g x); [now constructor | assumption].
Qed.

Lemma supported_batch_matmul (problem_size : ProblemSize)
    (kind : DispatchKind) (output input : ir.Type_) :
  supported (with_dispatch_kind problem_size kind) output input = true ->
  supported (with_dispatch_kind problem_size batch_matmul) output input
  = true.
Proof.
  unfold supported. cbn [with_dispatch_kind res_type dispatch_kind].
  intros [-> _]%andb_true_iff. reflexivity.
Qed.

(** The dispatch kind matters only through being a [batch_matmul] or not:
    the five other kinds select the same intrinsics, and what any kind
    selects is a subsequence of what [batch_matmul] selects for the same
    types. *)
Theorem get_compatible_mfma_intrinsics_dispatch_kind
    (problem_size : ProblemSize) :
  (forall kind : DispatchKind,
     sublist
       (get_compatible_mfma_intrinsics
          (with_dispatch_kind problem_size kind))
       (get_compatible_mfma_intrinsics
          (with_dispatch_kind problem_size batch_matmul)))
  /\ (forall kind kind' : DispatchKind,
        kind <> batch_matmul -> kind' <> batch_matmul ->
        get_compatible_mfma_intrinsics (with_dispatch_kind problem_size kind)
        = get_compatible_mfma_intrinsics
            (with_dispatch_kind problem_size kind')).
Proof.
  unfold get_compatible_mfma_intrinsics. split.
  - intros kind. apply filter_sublist_impl. intros i.
    rewrite !is_compatible_supported. apply supported_batch_matmul.
  - intros kind kind' Hk Hk'. apply List.filter_ext. intros i.
    rewrite !is_compatible_supported. unfold supported.
    cbn [with_dispatch_kind res_type lhs_type rhs_type dispatch_kind].
    apply DispatchKind_neqb_true in Hk, Hk'. now rewrite Hk, Hk'.
Qed.

Lemma filter_nil_all_false {A} (f : A -> bool) (l : list A) :
  (forall x, In x l -> f x = false) -> List.filter f l = [].
Proof.
  induction l as [|x l IH]; intros Hall; simpl; [reflexivity|].
  rewrite (Hall x) by now left. apply IH. intros y Hy. apply Hall. now right.
Qed.

(** Outside [batch_matmul], a problem whose operands have different element
    types has no compatible intrinsic. *)
Theorem get_compatible_mfma_intrinsics_mixed_operands
    (problem_size : ProblemSize) :
  dispatch_kind problem_size <> batch_matmul ->
  element_type (lhs_type problem_size)
  <> element_type (rhs_type problem_size) ->
  get_compatible_mfma_intrinsics problem_size = [].
Proof.
  intros Hkind Hmixed. apply filter_nil_all_false. intros i _.
  rewrite is_compatible_typed by assumption.
  destruct (types_matchb problem_size i) eqn:Hm; [|reflexivity].
  apply types_matchb_spec in Hm as (_ & Hl & Hr). congruence.
Qed.

Lemma get_compatible_mfma_intrinsics_mixed_operands_witness :
  get_compatible_mfma_intrinsics mmt_mixed_operands_problem = [].
Proof.
  apply (get_compatible_mfma_intrinsics_mixed_operands
           mmt_mixed_operands_problem); discriminate.
Defined.

Lemma MfmaIntrinsic_all_NoDup : List.NoDup MfmaIntrinsic.all.
Proof.
  unfold MfmaIntrinsic.all.
  repeat (constructor; [simpl; intuition discriminate|]).
  constructor.
Qed.

(** No intrinsic is returned twice, and the returned intrinsics have
    pairwise different names. *)
Theorem get_compatible_mfma_intrinsics_NoDup (problem_size : ProblemSize) :
  List.NoDup (get_compatible_mfma_intrinsics problem_size)
  /\ List.NoDup (map MfmaIntrinsic.str
                   (get_compatible_mfma_intrinsics problem_size)).
Proof.
  assert (Hnodup : List.NoDup (get_compatible_mfma_intrinsics problem_size)).
  { apply NoDup_ListNoDup, (sublist_NoDup _ MfmaIntrinsic.all).
    - apply NoDup_ListNoDup, MfmaIntrinsic_all_NoDup.
    - apply filter_sublist. }
  split; [exact Hnodup|].
  apply Finite.Injective_map_NoDup; [|exact Hnodup].
  intros a b. apply MfmaIntrinsic_str_inj.
Qed.

(** ** Renderings of the pipeline options *)

Lemma read_options_str (o : GpuPipelineOptions.t) :
  read_options (GpuPipelineOptions.str o) = o.
Proof. destruct o as [[[]|] [[]|] [[]|]]; vm_compute; reflexivity. Qed.

Lemma GpuPipelineOptions_str_inj (o o' : GpuPipelineOptions.t) :
  GpuPipelineOptions.str o = GpuPipelineOptions.str o' -> o = o'.
Proof.
  intros Heq. rewrite <- (read_options_str o), Heq. apply read_options_str.
Qed.

Lemma GpuPipelineOptions_str_body (o : GpuPipelineOptions.t) :
  GpuPipelineOptions.str o
  = "#iree_gpu.pipeline_options<" ++ join ", " (clauses o) ++ ">".
Proof. destruct o as [[p|] [b|] [r|]]; reflexivity. Qed.

Lemma clauses_lack_closing (o : GpuPipelineOptions.t) :
  lacks ">" (join ", " (clauses o)) = true.
Proof. destruct o as [[[]|] [[]|] [[]|]]; reflexivity. Qed.

Lemma all_default_eq (o : GpuPipelineOptions.t) :
  GpuPipelineOptions.all_default o = true <-> o = GpuPipelineOptions.default.
Proof.
  split; [|now intros ->].
  destruct o as [[p|] [b|] [r|]]; cbn; intros H;
    discriminate H || reflexivity.
Qed.

(** The rendering of the pipeline options determines the options, so a
    strategy set to [NONE] is told apart from an unset strategy; and the
    empty attribute is the rendering of the all-default instance only. *)
Theorem GpuPipelineOptions_str_injective (o o' : GpuPipelineOptions.t) :
  (GpuPipelineOptions.str o = GpuPipelineOptions.str o' <-> o = o')
  /\ (GpuPipelineOptions.str o = "#iree_gpu.pipeline_options<>"
      <-> GpuPipelineOptions.all_default o = true).
Proof.
  split.
  - split; [apply GpuPipelineOptions_str_inj | now intros ->].
  - rewrite all_default_eq. split; [|now intros ->].
    intros Heq. now apply GpuPipelineOptions_str_inj.
Qed.

(** ** The pipeline configuration fragment, read back *)

Lemma get_pipeline_config_split (configuration : Configuration) :
  get_pipeline_config configuration
  = pipeline_options_fragment configuration
      ++ waves_per_eu_fragment configuration.
Proof.
  unfold get_pipeline_config, pipeline_options_fragment,
    waves_per_eu_fragment.
  destruct (GpuPipelineOptions.all_default _);
    destruct (waves_per_eu configuration =? 2); cbn [negb];
    rewrite ?append_nil_r; reflexivity.
Qed.

Lemma waves_per_eu_fragment_inj (c c' : Configuration) :
  waves_per_eu_fragment c = waves_per_eu_fragment c' ->
  waves_per_eu c = waves_per_eu c'.
Proof.
  unfold waves_per_eu_fragment.
  destruct (Z.eqb_spec (waves_per_eu c) 2) as [Hw|Hw],
           (Z.eqb_spec (waves_per_eu c') 2) as [Hw'|Hw']; intros Heq.
  - congruence.
  - discriminate Heq.
  - discriminate Heq.
  - do 6 apply append_cancel_l in Heq. unfold dquote in Heq.
    apply append_cut_sep in Heq as [Heq _];
      [|now apply str_int_lacks..].
    now apply str_int_inj.
Qed.

Lemma pipeline_fragments_inj (c c' : Configuration) :
  pipeline_options_fragment c ++ waves_per_eu_fragment c
  = pipeline_options_fragment c' ++ waves_per_eu_fragment c' ->
  gpu_pipeline_options c = gpu_pipeline_options c'
  /\ waves_per_eu c = waves_per_eu c'.
Proof.
  unfold pipeline_options_fragment.
  destruct (GpuPipelineOptions.all_default (gpu_pipeline_options c)) eqn:Hd,
    (GpuPipelineOptions.all_default (gpu_pipeline_options c')) eqn:Hd'.
  - cbn [String.append]. intros Heq.
    apply all_default_eq in Hd, Hd'. split; [congruence|].
    now apply waves_per_eu_fragment_inj.
  - unfold waves_per_eu_fragment at 1.
    destruct (waves_per_eu c =? 2); cbn [String.append]; intros Heq;
      discriminate Heq.
  - unfold waves_per_eu_fragment at 2.
    destruct (waves_per_eu c' =? 2); cbn [String.append]; intros Heq;
      discriminate Heq.
  - rewrite !GpuPipelineOptions_str_body, !append_assoc. intros Heq.
    do 2 apply append_cancel_l in Heq.
    apply append_cut_sep in Heq as [Hbody Hwaves];
      [|apply clauses_lack_closing..].
    split; [|now apply waves_per_eu_fragment_inj].
    apply GpuPipelineOptions_str_inj.
    now rewrite !GpuPipelineOptions_str_body, Hbody.
Qed.

(** The fragment determines the two settings it is made from: two
    configurations give the same fragment exactly when they have the same
    pipeline options and the same waves-per-eu; and the fragment is empty
    only for all-default options with waves-per-eu 2. *)
Theorem get_pipeline_config_injective (c c' : Configuration) :
  (get_pipeline_config c = get_pipeline_config c'
   <-> gpu_pipeline_options c = gpu_pipeline_options c'
       /\ waves_per_eu c = waves_per_eu c')
  /\ (get_pipeline_config c = ""
      <-> GpuPipelineOptions.all_default (gpu_pipeline_options c) = true
          /\ waves_per_eu c = 2).
Proof.
  split.
  - rewrite !get_pipeline_config_split. split.
    + apply pipeline_fragments_inj.
    + intros [Ho Hw].
      unfold pipeline_options_fragment, waves_per_eu_fragment.
      now rewrite Ho, Hw.
  - unfold get_pipeline_config.
    destruct (GpuPipelineOptions.all_default _);
      destruct (Z.eqb_spec (waves_per_eu c) 2) as [Hw|Hw]; cbn [negb];
      split; try (intros [Hd Hw2]); try (intros Heq);
      try discriminate; try contradiction; try reflexivity.
    now split.
Qed.

(** ** Names of the reorder strategies *)

(** A strategy renders as its member name with the first letter kept and
    the other letters in lower case, and different strategies render
    differently. *)
Theorem ReorderWorkgroupsStrategy_str_title
    (s s' : ReorderWorkgroupsStrategy) :
  (exists c rest,
      ReorderWorkgroupsStrategy_name s = String c rest
      /\ ReorderWorkgroupsStrategy_str s = String c (lower rest))
  /\ upper (ReorderWorkgroupsStrategy_str s)
     = ReorderWorkgroupsStrategy_name s
  /\ (ReorderWorkgroupsStrategy_str s = ReorderWorkgroupsStrategy_str s'
      <-> s = s').
Proof.
  split; [|split].
  - destruct s; eexists; eexists; split; reflexivity.
  - destruct s; reflexivity.
  - split; [|now intros ->].
    destruct s, s'; intros Heq; try reflexivity; discriminate Heq.
Qed.

(** ** Convolution dimensions, read back *)



(** ** What the compatibility filter does not look at *)

(** The filter reads the three element types and the dispatch kind only:
    two problems that agree on them get the same intrinsics, whatever their
    shapes and matmul sizes, so no tile size is checked against M, N or K. *)
Theorem get_compatible_mfma_intrinsics_ignores_sizes
    (problem_size problem_size' : ProblemSize) :
  element_type (lhs_type problem_size)
  = element_type (lhs_type problem_size') ->
  element_type (rhs_type problem_size)
  = element_type (rhs_type problem_size') ->
  element_type (res_type problem_size)
  = element_type (res_type problem_size') ->
  dispatch_kind problem_size = dispatch_kind problem_size' ->
  get_compatible_mfma_intrinsics problem_size
  = get_compatible_mfma_intrinsics problem_size'.
Proof.
  intros Hl Hr Hres Hk. apply List.filter_ext. intros i.
  rewrite !is_compatible_supported. unfold supported.
  now rewrite Hl, Hr, Hres, Hk.
Qed.

Lemma get_compatible_mfma_intrinsics_ignores_sizes_witness :
  get_compatible_mfma_intrinsics mmt_f16_problem
  = get_compatible_mfma_intrinsics mmt_f16_odd_problem.
Proof.
  apply (get_compatible_mfma_intrinsics_ignores_sizes
           mmt_f16_problem mmt_f16_odd_problem); reflexivity.
Defined.

(** ** Reading the input file *)

Lemma readlines_concat (text : string) :
  String.concat "" (io.readlines text) = text.
Proof.
  induction text as [|c text IH]; [reflexivity|].
  cbn [io.readlines]. destruct (Ascii.eqb c io.newline).
  - destruct (io.readlines text) as [|line lines] eqn:Hlines.
    + simpl in *. now rewrite <- IH.
    + change (String c (String.concat "" (line :: lines)) = String c text).
      now rewrite IH.
  - destruct (io.readlines text) as [|line lines] eqn:Hlines.
    + simpl in *. now rewrite <- IH.
    + rewrite <- IH. destruct lines; reflexivity.
Qed.

Lemma readlines_lines (text : string) : Forall is_line (io.readlines text).
Proof.
  induction text as [|c text IH]; [constructor|].
  cbn [io.readlines]. destruct (Ascii.eqb_spec c io.newline) as [->|Hc].
  - constructor; [|exact IH]. split; [discriminate | reflexivity].
  - destruct (io.readlines text) as [|line lines].
    + constructor; [|constructor]. split; [discriminate | reflexivity].
    + inversion IH as [|? ? [Hne Hline] Hlines]; subst.
      constructor; [|exact Hlines]. split; [discriminate|].
      destruct line as [|d line]; [contradiction|].
      change (lacks io.newline (String c (but_last (String d line))) = true).
      rewrite lacks_cons, Hline.
      destruct (Ascii.eqb_spec c io.newline); [contradiction | reflexivity].
Qed.

Lemma readlines_newlines (text : string) :
  Forall (fun line => last_char line = Some io.newline)
         (removelast (io.readlines text)).
Proof.
  induction text as [|c text IH]; [constructor|].
  cbn [io.readlines]. destruct (Ascii.eqb_spec c io.newline) as [->|Hc].
  - destruct (io.readlines text) as [|line lines]; [constructor|].
    change (Forall (fun line => last_char line = Some io.newline)
              (String io.newline "" :: removelast (line :: lines))).
    constructor; [reflexivity | exact IH].
  - destruct (io.readlines text) as [|line [|line' lines]];
      [constructor..|].
    change (Forall (fun line => last_char line = Some io.newline)
              (String c line :: removelast (line' :: lines))).
    change (Forall (fun line => last_char line = Some io.newline)
              (line :: removelast (line' :: lines))) in IH.
    inversion IH as [|? ? Hline Hlines]; subst.
    constructor; [|exact Hlines].
    destruct line; [discriminate Hline | exact Hline].
Qed.

